(** * Ghostpass: the [Field] credential envelope (field.go)

    A shallow embedding of [NewField], [ReconstructField],
    [Field.RederiveAuthPair] and [Field.AddDeniableSecret], together
    with the properties of the envelope that follow from the code.

    The memguard enclave primitives and the symmetric box cipher
    ([BoxEncrypt] / [BoxDecrypt]) are consumed through their signatures only;
    they are the fields of the class [Primitives]. *)

From Stdlib Require Import List String Ascii Bool Lia.
From Stdlib Require Import Strings.Byte.
Import ListNotations.
Open Scope string_scope.
Open Scope list_scope.

(** ** Go values *)

(** A Go slice is either [nil] or a (possibly empty) sequence of elements:
    [f.AuthPair == nil] tells the two apart, [len] does not. *)
Module GoSlice.

Definition slice (A : Type) : Type := option (list A).

Definition elems {A : Type} (s : slice A) : list A :=
  match s with
  | None => []
  | Some l => l
  end.

Definition len {A : Type} (s : slice A) : nat := List.length (elems s).

Definition is_nil {A : Type} (s : slice A) : bool :=
  match s with
  | None => true
  | Some _ => false
  end.

(** [append(s, x)]: the result is never nil, the old elements keep their
    places. *)
Definition append {A : Type} (s : slice A) (x : A) : slice A :=
  Some (elems s ++ [x]).

End GoSlice.
Import GoSlice.

Definition bytes : Type := slice byte.

(** [[]byte(s)]: a fresh, non-nil slice holding the bytes of [s]. *)
Definition bytes_of_string (s : string) : bytes := Some (list_byte_of_string s).

(** [string(b)]: the bytes of [b]; the nil slice gives the empty string. *)
Definition string_of_bytes (b : bytes) : string := string_of_list_byte (elems b).

(** A Go [error] value, identified by its message. *)
Definition error : Type := string.

Definition errors_New (msg : string) : error := msg.

(** Run-time panics the code can raise. *)
Inductive panic : Type :=
| IndexOutOfRange (index length : nat)
| NilPointerDereference.

(** ** strings.Split with a one-byte separator

    [strings.Split(s, sep)] cuts [s] at every occurrence of [sep]; with [n]
    occurrences the result has [n + 1] elements, and splitting the empty
    string gives one empty element.  The one call site passes a colon. *)
Fixpoint Split (s : string) (sep : ascii) : list string :=
  match s with
  | EmptyString => [EmptyString]
  | String c rest =>
      if Ascii.eqb c sep then EmptyString :: Split rest sep
      else match Split rest sep with
           | [] => [String c EmptyString]
           | w :: ws => String c w :: ws
           end
  end.

Definition colon : ascii := ":"%char.

(** [strings.Contains(s, string(c))] *)
Fixpoint contains (s : string) (c : ascii) : bool :=
  match s with
  | EmptyString => false
  | String a rest => Ascii.eqb a c || contains rest c
  end.

(** The part of [s] before the first [c] (all of [s] when there is none). *)
Fixpoint before (s : string) (c : ascii) : string :=
  match s with
  | EmptyString => EmptyString
  | String a rest => if Ascii.eqb a c then EmptyString else String a (before rest c)
  end.

(** The part of [s] after the first [c] (empty when there is none). *)
Fixpoint after (s : string) (c : ascii) : string :=
  match s with
  | EmptyString => EmptyString
  | String a rest => if Ascii.eqb a c then rest else after rest c
  end.

(** ** Outcomes and the state monad of the embedding *)

Inductive Res (A : Type) : Type :=
| Returns (a : A)
| Panics (p : panic).
Arguments Returns {A} a.
Arguments Panics {A} p.

(** A computation over a state [S]: the state survives a panic, as memory
    does. *)
Definition M (S A : Type) : Type := S -> Res A * S.

Definition ret {S A : Type} (a : A) : M S A := fun s => (Returns a, s).

Definition bind {S A B : Type} (m : M S A) (k : A -> M S B) : M S B :=
  fun s =>
    match m s with
    | (Returns a, s') => k a s'
    | (Panics p, s') => (Panics p, s')
    end.

Definition raise {S A : Type} (p : panic) : M S A := fun s => (Panics p, s).

Notation "x <- m ;; k" := (bind m (fun x => k))
  (at level 61, m at next level, right associativity).
Notation "m ;;; k" := (bind m (fun _ => k))
  (at level 61, right associativity).

(** [xs[i]] with Go's bounds check. *)
Definition index {S A : Type} (xs : list A) (i : nat) : M S A :=
  match nth_error xs i with
  | Some x => ret x
  | None => raise (IndexOutOfRange i (List.length xs))
  end.

(** ** The external primitives

    The memguard operations used by field.go ([Enclave.Open],
    [LockedBuffer.Bytes], [memguard.NewBufferFromBytes], [LockedBuffer.Seal])
    and the box cipher ([BoxEncrypt], [BoxDecrypt], each returning a byte
    slice and an [error]).  [Enclave] stands for a non-nil enclave reference;
    [Seal] may hand back a nil one. *)
Class Primitives : Type := {
  Enclave : Type;
  LockedBuffer : Type;
  Open : Enclave -> error + LockedBuffer;
  Bytes : LockedBuffer -> bytes;
  NewBufferFromBytes : bytes -> LockedBuffer;
  Seal : LockedBuffer -> option Enclave;
  BoxEncrypt : bytes -> bytes -> error + bytes;
  BoxDecrypt : bytes -> bytes -> error + bytes
}.

Section Ghostpass.

Context {P : Primitives}.

(** *** The data model *)

Record Field : Type := mkField {
  Username : option Enclave;
  Pwd : option Enclave;
  AuthPair : bytes;
  DeniablePairs : slice bytes
}.

(** [var field Field] *)
Definition zeroField : Field :=
  {| Username := None; Pwd := None; AuthPair := None; DeniablePairs := None |}.

(** *** Calls to the primitives, recorded in order *)

Inductive Event : Type :=
| CallOpen (e : Enclave)
| CallNewBufferFromBytes (b : bytes)
| CallSeal (b : LockedBuffer)
| CallBoxEncrypt (key plaintext : bytes)
| CallBoxDecrypt (key ciphertext : bytes).

Definition Trace : Type := list Event.

Definition record {A : Type} (ev : Event) (a : A) : M Trace A :=
  fun t => (Returns a, t ++ [ev]).

Definition call_Open (e : Enclave) : M Trace (error + LockedBuffer) :=
  record (CallOpen e) (Open e).

Definition call_NewBufferFromBytes (b : bytes) : M Trace LockedBuffer :=
  record (CallNewBufferFromBytes b) (NewBufferFromBytes b).

Definition call_Seal (b : LockedBuffer) : M Trace (option Enclave) :=
  record (CallSeal b) (Seal b).

Definition call_BoxEncrypt (key plaintext : bytes) : M Trace (error + bytes) :=
  record (CallBoxEncrypt key plaintext) (BoxEncrypt key plaintext).

Definition call_BoxDecrypt (key ciphertext : bytes) : M Trace (error + bytes) :=
  record (CallBoxDecrypt key ciphertext) (BoxDecrypt key ciphertext).

(** *** Methods: the receiver, a [Field] reference, is part of the state *)

Definition Method (A : Type) : Type := M (Field * Trace) A.

Definition prim {A : Type} (m : M Trace A) : Method A :=
  fun '(f, t) => let '(r, t') := m t in (r, (f, t')).

Definition this : Method Field := fun '(f, t) => (Returns f, (f, t)).

Definition assign (upd : Field -> Field) : Method unit :=
  fun '(f, t) => (Returns tt, (upd f, t)).

Definition set_Username (h : option Enclave) (f : Field) : Field :=
  {| Username := h; Pwd := Pwd f; AuthPair := AuthPair f;
     DeniablePairs := DeniablePairs f |}.

Definition set_Pwd (h : option Enclave) (f : Field) : Field :=
  {| Username := Username f; Pwd := h; AuthPair := AuthPair f;
     DeniablePairs := DeniablePairs f |}.

Definition set_AuthPair (b : bytes) (f : Field) : Field :=
  {| Username := Username f; Pwd := Pwd f; AuthPair := b;
     DeniablePairs := DeniablePairs f |}.

Definition set_DeniablePairs (d : slice bytes) (f : Field) : Field :=
  {| Username := Username f; Pwd := Pwd f; AuthPair := AuthPair f;
     DeniablePairs := d |}.

(** *** field.go *)

(** [func NewField(key []byte, username string, pwd Enclave)], returning a
    [Field] reference and an [error]. *)
Definition NewField (key : bytes) (username : string) (pwd : Enclave)
  : M Trace (option Field * option error) :=
  opened <- call_Open pwd ;;
  match opened with
  | inl err => ret (None, Some err)
  | inr clearpwd =>
      let secretstr := (username ++ ":" ++ string_of_bytes (Bytes clearpwd))%string in
      sealed <- call_BoxEncrypt key (bytes_of_string secretstr) ;;
      match sealed with
      | inl err => ret (None, Some err)
      | inr secret =>
          user_enclave <- call_NewBufferFromBytes (bytes_of_string username) ;;
          user_handle <- call_Seal user_enclave ;;
          ret (Some {| Username := user_handle;
                       Pwd := Some pwd;
                       AuthPair := secret;
                       DeniablePairs := None |}, None)
      end
  end.

(** [func (f Field) RederiveAuthPair(key []byte) error], pointer receiver. *)
Definition RederiveAuthPair (key : bytes) : Method (option error) :=
  f <- this ;;
  if is_nil (AuthPair f) then ret (Some (errors_New "No secret in field"))
  else
    opened <- prim (call_BoxDecrypt key (AuthPair f)) ;;
    match opened with
    | inl err => ret (Some err)
    | inr plaintext =>
        let creds := Split (string_of_bytes plaintext) colon in
        user <- index creds 0 ;;
        pwd <- index creds 1 ;;
        user_enclave <- prim (call_NewBufferFromBytes (bytes_of_string user)) ;;
        pwd_enclave <- prim (call_NewBufferFromBytes (bytes_of_string pwd)) ;;
        user_handle <- prim (call_Seal user_enclave) ;;
        assign (set_Username user_handle) ;;;
        pwd_handle <- prim (call_Seal pwd_enclave) ;;
        assign (set_Pwd pwd_handle) ;;;
        ret None
    end.

(** Run a method on a local [Field] variable and hand back its final
    value. *)
Definition on_local {A : Type} (f0 : Field) (m : Method A) : M Trace (A * Field) :=
  fun t =>
    match m (f0, t) with
    | (Returns a, (f, t')) => (Returns (a, f), t')
    | (Panics p, (_, t')) => (Panics p, t')
    end.

(** [func ReconstructField(key []byte, compressed []byte)], returning a
    [Field] reference and an [error]. *)
Definition ReconstructField (key compressed : bytes)
  : M Trace (option Field * option error) :=
  let field := set_AuthPair compressed zeroField in
  r <- on_local field (RederiveAuthPair key) ;;
  match r with
  | (Some err, _) => ret (None, Some err)
  | (None, field') => ret (Some field', None)
  end.

(** [func (f Field) AddDeniableSecret(username string, pwd Enclave) error],
    pointer receiver. *)
Definition AddDeniableSecret (username : string) (pwd : Enclave)
  : Method (option error) :=
  opened <- prim (call_Open pwd) ;;
  match opened with
  | inl err => ret (Some err)
  | inr clearpwd =>
      let secretstr := (username ++ ":" ++ string_of_bytes (Bytes clearpwd))%string in
      f <- this ;;
      assign (set_DeniablePairs
                (append (DeniablePairs f) (bytes_of_string secretstr))) ;;;
      ret None
  end.

(** *** Reading a handle back *)

(** The cleartext behind a handle stored in a field: [h.Open()] followed by
    [Bytes()]; a nil handle cannot be opened. *)
Definition cleartext (h : option Enclave) : Res (error + string) :=
  match h with
  | None => Panics NilPointerDereference
  | Some e =>
      match Open e with
      | inl err => Returns (inl err)
      | inr b => Returns (inr (string_of_bytes (Bytes b)))
      end
  end.

(** *** Contracts of the primitives, as the envelope relies on them *)

(** Opening under the sealing key gives the sealed bytes back. *)
Definition cipher_roundtrip : Prop :=
  forall key plaintext secret,
    BoxEncrypt key plaintext = inr secret ->
    exists opened,
      BoxDecrypt key secret = inr opened /\ elems opened = elems plaintext.

(** A sealed box is an actual blob (nonce, tag, ...), never the nil slice. *)
Definition ciphertext_present : Prop :=
  forall key plaintext secret,
    BoxEncrypt key plaintext = inr secret -> is_nil secret = false.


(** The same, asked only of slices that hold at least one byte.  memguard
    makes a null buffer out of an empty slice, and sealing a null buffer
    gives the nil enclave reference. *)
Definition guard_roundtrip_nonempty : Prop :=
  forall b : bytes,
    elems b <> [] ->
    cleartext (Seal (NewBufferFromBytes b)) = Returns (inr (string_of_bytes b)).

End Ghostpass.

(** ** A small concrete instance of the primitives

    Enclaves that keep their bytes (or are beyond opening), and a cipher that
    tags the plaintext with the key.  Used to run the code on concrete
    inputs. *)
Module Toy.

Inductive enclave : Type :=
| Sealed (b : list byte)
| Wiped.

Definition open (e : enclave) : error + list byte :=
  match e with
  | Sealed b => inr b
  | Wiped => inl "memguard: unable to open enclave"
  end.

Fixpoint strip_prefix (k c : list byte) : option (list byte) :=
  match k, c with
  | [], _ => Some c
  | _ :: _, [] => None
  | a :: k', b :: c' => if Byte.eqb a b then strip_prefix k' c' else None
  end.

Definition box_encrypt (key plaintext : bytes) : error + bytes :=
  match key with
  | None => inl "box: no key"
  | Some k => inr (Some (k ++ elems plaintext))
  end.

Definition box_decrypt (key ciphertext : bytes) : error + bytes :=
  match strip_prefix (elems key) (elems ciphertext) with
  | Some m => inr (Some m)
  | None => inl "box: message authentication failed"
  end.

#[export] Instance prims : Primitives := {|
  Enclave := enclave;
  LockedBuffer := list byte;
  Open := open;
  Bytes := fun b => Some b;
  NewBufferFromBytes := fun b => elems b;
  Seal := fun b => Some (Sealed b);
  BoxEncrypt := box_encrypt;
  BoxDecrypt := box_decrypt
|}.

Definition key : bytes := bytes_of_string "k3y".

End Toy.

(** ** The same instance with memguard's null buffer

    As [Toy], except that sealing a buffer of size zero gives the nil
    reference, which is what memguard does with the buffer it makes from an
    empty slice. *)
Module NullBuffer.

Definition seal (b : list byte) : option Toy.enclave :=
  match b with
  | [] => None
  | _ :: _ => Some (Toy.Sealed b)
  end.

Definition prims : Primitives := {|
  Enclave := Toy.enclave;
  LockedBuffer := list byte;
  Open := Toy.open;
  Bytes := fun b => Some b;
  NewBufferFromBytes := fun b => elems b;
  Seal := seal;
  BoxEncrypt := Toy.box_encrypt;
  BoxDecrypt := Toy.box_decrypt
|}.

End NullBuffer.

(** * Properties *)

(** ** Slices, strings and bytes *)

Lemma len_append {A : Type} (s : slice A) (x : A) :
  len (append s x) = S (len s).
Proof.
  unfold len, append; simpl. rewrite length_app; simpl. lia.
Qed.

Lemma is_nil_true {A : Type} (s : slice A) : is_nil s = true <-> s = None.
Proof.
  destruct s; simpl; split; intro H; try reflexivity; discriminate H.
Qed.

Lemma string_of_bytes_of_string (s : string) :
  string_of_bytes (bytes_of_string s) = s.
Proof.
  unfold string_of_bytes, bytes_of_string; simpl.
  apply string_of_list_byte_of_string.
Qed.

Lemma bytes_of_string_not_empty (s : string) :
  s <> EmptyString -> elems (bytes_of_string s) <> [].
Proof.
  intros Hs Hnil. apply Hs.
  rewrite <- (string_of_list_byte_of_string s).
  simpl in Hnil. now rewrite Hnil.
Qed.

Lemma list_byte_of_string_app (a b : string) :
  list_byte_of_string (a ++ b)%string =
  list_byte_of_string a ++ list_byte_of_string b.
Proof.
  unfold list_byte_of_string.
  induction a as [|c a IH]; simpl; [reflexivity|].
  now rewrite IH.
Qed.

(** The bytes of [username + ":" + string(clear)], spelled out. *)
Lemma secret_bytes (username : string) (clear : bytes) :
  list_byte_of_string (username ++ ":" ++ string_of_bytes clear)%string =
  list_byte_of_string username ++ [":"%byte] ++ elems clear.
Proof.
  rewrite !list_byte_of_string_app. unfold string_of_bytes.
  now rewrite list_byte_of_string_of_list_byte.
Qed.

(** ** strings.Split *)

Lemma Split_not_nil (s : string) (c : ascii) : Split s c <> [].
Proof.
  destruct s as [|a s]; simpl; [discriminate|].
  destruct (Ascii.eqb a c); [discriminate|].
  destruct (Split s c); discriminate.
Qed.

Lemma Split_head (s : string) (c : ascii) :
  nth_error (Split s c) 0 = Some (before s c).
Proof.
  induction s as [|a s IH]; simpl; [reflexivity|].
  destruct (Ascii.eqb a c); simpl; [reflexivity|].
  destruct (Split s c) as [|w ws]; simpl in *; [discriminate IH|].
  now injection IH as ->.
Qed.

Lemma Split_tail (s : string) (c : ascii) :
  contains s c = true -> tl (Split s c) = Split (after s c) c.
Proof.
  induction s as [|a s IH]; simpl; [discriminate|].
  destruct (Ascii.eqb a c); simpl; [reflexivity|].
  intro H. specialize (IH H).
  destruct (Split s c) as [|w ws]; simpl in *; [|exact IH].
  symmetry in IH. now apply Split_not_nil in IH.
Qed.

Lemma Split_second (s : string) (c : ascii) :
  contains s c = true ->
  nth_error (Split s c) 1 = Some (before (after s c) c).
Proof.
  intro H. apply Split_tail in H.
  rewrite <- Split_head, <- H.
  now destruct (Split s c).
Qed.

Lemma Split_no_separator (s : string) (c : ascii) :
  contains s c = false -> Split s c = [s].
Proof.
  induction s as [|a s IH]; simpl; [reflexivity|].
  destruct (Ascii.eqb a c); simpl; [discriminate|].
  intro H. now rewrite (IH H).
Qed.

Lemma before_no_separator (s : string) (c : ascii) :
  contains s c = false -> before s c = s.
Proof.
  induction s as [|a s IH]; simpl; [reflexivity|].
  destruct (Ascii.eqb a c); simpl; [discriminate|].
  intro H. now rewrite (IH H).
Qed.

Lemma before_shorter (s : string) (c : ascii) :
  contains s c = true -> String.length (before s c) < String.length s.
Proof.
  induction s as [|a s IH]; simpl; [discriminate|].
  destruct (Ascii.eqb a c); simpl; [lia|].
  intro H. specialize (IH H). lia.
Qed.

Lemma before_proper_prefix (s : string) (c : ascii) :
  contains s c = true -> before s c <> s.
Proof.
  intros H E. apply before_shorter in H. rewrite E in H. lia.
Qed.

Lemma contains_join (u p : string) (c : ascii) :
  contains (u ++ String c p)%string c = true.
Proof.
  induction u as [|a u IH]; simpl.
  - now rewrite Ascii.eqb_refl.
  - rewrite IH. apply orb_true_r.
Qed.

Lemma before_join (u p : string) (c : ascii) :
  before (u ++ String c p)%string c = before u c.
Proof.
  induction u as [|a u IH]; simpl.
  - now rewrite Ascii.eqb_refl.
  - destruct (Ascii.eqb a c); [reflexivity|]. now rewrite IH.
Qed.

Lemma after_join (u p : string) (c : ascii) :
  contains u c = false -> after (u ++ String c p)%string c = p.
Proof.
  induction u as [|a u IH]; simpl.
  - now rewrite Ascii.eqb_refl.
  - destruct (Ascii.eqb a c); simpl; [discriminate|]. exact IH.
Qed.

(** ** The operations of field.go *)

Section Properties.

Context {P : Primitives}.

(** *** What each operation computes *)

Lemma NewField_run (key : bytes) (username : string) (pwd : Enclave) (t : Trace) :
  NewField key username pwd t =
  match Open pwd with
  | inl err => (Returns (None, Some err), t ++ [CallOpen pwd])
  | inr clearpwd =>
      let plaintext :=
        bytes_of_string
          (username ++ ":" ++ string_of_bytes (Bytes clearpwd))%string in
      match BoxEncrypt key plaintext with
      | inl err =>
          (Returns (None, Some err),
           (t ++ [CallOpen pwd]) ++ [CallBoxEncrypt key plaintext])
      | inr secret =>
          let user_enclave := NewBufferFromBytes (bytes_of_string username) in
          (Returns (Some {| Username := Seal user_enclave;
                            Pwd := Some pwd;
                            AuthPair := secret;
                            DeniablePairs := None |}, None),
           (((t ++ [CallOpen pwd]) ++ [CallBoxEncrypt key plaintext])
              ++ [CallNewBufferFromBytes (bytes_of_string username)])
             ++ [CallSeal user_enclave])
      end
  end.
Proof.
  unfold NewField, bind, call_Open, call_BoxEncrypt, record; simpl.
  destruct (Open pwd) as [err|clearpwd]; [reflexivity|]. simpl.
  destruct (BoxEncrypt _ _) as [err|secret]; reflexivity.
Qed.

Lemma RederiveAuthPair_run (key : bytes) (f : Field) (t : Trace) :
  RederiveAuthPair key (f, t) =
  if is_nil (AuthPair f)
  then (Returns (Some (errors_New "No secret in field")), (f, t))
  else
    let t1 := t ++ [CallBoxDecrypt key (AuthPair f)] in
    match BoxDecrypt key (AuthPair f) with
    | inl err => (Returns (Some err), (f, t1))
    | inr plaintext =>
        let s := string_of_bytes plaintext in
        if contains s colon then
          let user := bytes_of_string (before s colon) in
          let pwd := bytes_of_string (before (after s colon) colon) in
          let user_enclave := NewBufferFromBytes user in
          let pwd_enclave := NewBufferFromBytes pwd in
          (Returns None,
           ({| Username := Seal user_enclave;
               Pwd := Seal pwd_enclave;
               AuthPair := AuthPair f;
               DeniablePairs := DeniablePairs f |},
            (((t1 ++ [CallNewBufferFromBytes user])
                ++ [CallNewBufferFromBytes pwd])
               ++ [CallSeal user_enclave]) ++ [CallSeal pwd_enclave]))
        else (Panics (IndexOutOfRange 1 1), (f, t1))
    end.
Proof.
  unfold RederiveAuthPair, bind, this, prim, call_BoxDecrypt, record; simpl.
  destruct (is_nil (AuthPair f)); [reflexivity|].
  destruct (BoxDecrypt key (AuthPair f)) as [err|plaintext]; [reflexivity|].
  simpl. unfold index at 1.
  rewrite Split_head. unfold ret at 1.
  destruct (contains (string_of_bytes plaintext) colon) eqn:Hsep.
  - unfold index. rewrite (Split_second _ _ Hsep). reflexivity.
  - unfold index. rewrite (Split_no_separator _ _ Hsep). reflexivity.
Qed.

Lemma ReconstructField_run (key compressed : bytes) (t : Trace) :
  ReconstructField key compressed t =
  match RederiveAuthPair key (set_AuthPair compressed zeroField, t) with
  | (Returns (Some err), (_, t')) => (Returns (None, Some err), t')
  | (Returns None, (field, t')) => (Returns (Some field, None), t')
  | (Panics p, (_, t')) => (Panics p, t')
  end.
Proof.
  unfold ReconstructField, bind, on_local.
  destruct (RederiveAuthPair key _) as [[[err|]|p] [field t']]; reflexivity.
Qed.

Lemma AddDeniableSecret_run (username : string) (pwd : Enclave)
      (f : Field) (t : Trace) :
  AddDeniableSecret username pwd (f, t) =
  match Open pwd with
  | inl err => (Returns (Some err), (f, t ++ [CallOpen pwd]))
  | inr clearpwd =>
      (Returns None,
       (set_DeniablePairs
          (append (DeniablePairs f)
                  (bytes_of_string
                     (username ++ ":" ++ string_of_bytes (Bytes clearpwd))%string))
          f,
        t ++ [CallOpen pwd]))
  end.
Proof.
  unfold AddDeniableSecret, bind, prim, call_Open, record; simpl.
  destruct (Open pwd) as [err|clearpwd]; reflexivity.
Qed.

(** *** Frames *)

(** Whatever [RederiveAuthPair] does (return, with or without an error, or
    panic), [AuthPair] and [DeniablePairs] keep their values. *)
Lemma RederiveAuthPair_frame (key : bytes) (f : Field) (t : Trace) :
  AuthPair (fst (snd (RederiveAuthPair key (f, t)))) = AuthPair f /\
  DeniablePairs (fst (snd (RederiveAuthPair key (f, t)))) = DeniablePairs f.
Proof.
  rewrite RederiveAuthPair_run.
  destruct (is_nil (AuthPair f)); [now split|].
  destruct (BoxDecrypt key (AuthPair f)) as [err|plaintext]; [now split|].
  cbv zeta.
  destruct (contains (string_of_bytes plaintext) colon); now split.
Qed.

(** A call that does not return [nil] leaves the receiver as it was: both
    error returns precede the assignments, and so does the panic. *)
Lemma RederiveAuthPair_unchanged_unless_nil (key : bytes) (f : Field) (t : Trace) :
  fst (RederiveAuthPair key (f, t)) <> Returns None ->
  fst (snd (RederiveAuthPair key (f, t))) = f.
Proof.
  rewrite RederiveAuthPair_run.
  destruct (is_nil (AuthPair f)); [reflexivity|].
  destruct (BoxDecrypt key (AuthPair f)) as [err|plaintext]; [reflexivity|].
  cbv zeta.
  destruct (contains (string_of_bytes plaintext) colon); [|reflexivity].
  simpl. intro H. now contradiction H.
Qed.

(** *** Rederivation *)

(** With a separator in the plaintext the call succeeds; the username is the
    text before the first separator and the password is the text between
    the first separator and the next one (or the end). *)
Lemma RederiveAuthPair_with_separator
      (key : bytes) (f : Field) (t : Trace) (plaintext : bytes) :
  is_nil (AuthPair f) = false ->
  BoxDecrypt key (AuthPair f) = inr plaintext ->
  contains (string_of_bytes plaintext) colon = true ->
  exists t',
    RederiveAuthPair key (f, t) =
    (Returns None,
     ({| Username :=
           Seal (NewBufferFromBytes
                   (bytes_of_string (before (string_of_bytes plaintext) colon)));
         Pwd :=
           Seal (NewBufferFromBytes
                   (bytes_of_string
                      (before (after (string_of_bytes plaintext) colon) colon)));
         AuthPair := AuthPair f;
         DeniablePairs := DeniablePairs f |}, t')).
Proof.
  intros Hnil Hdec Hsep.
  rewrite RederiveAuthPair_run, Hnil, Hdec. cbv zeta. rewrite Hsep.
  eexists. reflexivity.
Qed.

(** Without a separator [creds] has one element and [creds[1]] panics; the
    receiver has not been assigned to. *)
Lemma RederiveAuthPair_without_separator
      (key : bytes) (f : Field) (t : Trace) (plaintext : bytes) :
  is_nil (AuthPair f) = false ->
  BoxDecrypt key (AuthPair f) = inr plaintext ->
  contains (string_of_bytes plaintext) colon = false ->
  RederiveAuthPair key (f, t) =
  (Panics (IndexOutOfRange 1 1), (f, t ++ [CallBoxDecrypt key (AuthPair f)])).
Proof.
  intros Hnil Hdec Hsep.
  rewrite RederiveAuthPair_run, Hnil, Hdec. cbv zeta. now rewrite Hsep.
Qed.

(** C2 (as amended): when the decrypted plaintext contains a colon,
    [RederiveAuthPair] succeeds and sets the username to the text before the
    first colon; when that colon is the only one, it sets the password to
    the entire remainder after it. *)
Theorem RederiveAuthPair_split
        (key : bytes) (f : Field) (t : Trace) (plaintext : bytes) :
  is_nil (AuthPair f) = false ->
  BoxDecrypt key (AuthPair f) = inr plaintext ->
  contains (string_of_bytes plaintext) colon = true ->
  exists f' t',
    RederiveAuthPair key (f, t) = (Returns None, (f', t')) /\
    Username f' =
      Seal (NewBufferFromBytes
              (bytes_of_string (before (string_of_bytes plaintext) colon))) /\
    (contains (after (string_of_bytes plaintext) colon) colon = false ->
     Pwd f' =
       Seal (NewBufferFromBytes
               (bytes_of_string (after (string_of_bytes plaintext) colon)))).
Proof.
  intros Hnil Hdec Hsep.
  destruct (RederiveAuthPair_with_separator key f t plaintext Hnil Hdec Hsep)
    as [t' Hrun].
  eexists; exists t'. split; [exact Hrun|]. simpl. split; [reflexivity|].
  intro Hone. now rewrite (before_no_separator _ _ Hone).
Qed.

(** *** Reconstruction *)

(** C4 (as amended): reconstructing from a nil blob fails with the
    no-secret error, and no primitive (in particular not [BoxDecrypt]) is
    called: the trace is returned as it was. *)
Theorem ReconstructField_nil_blob (key : bytes) (t : Trace) :
  ReconstructField key None t =
  (Returns (None, Some (errors_New "No secret in field")), t).
Proof.
  rewrite ReconstructField_run, RederiveAuthPair_run. reflexivity.
Qed.

(** Any non-nil blob, the empty one included, passes the guard and is handed
    to [BoxDecrypt]. *)
Lemma ReconstructField_decrypts_non_nil (key : bytes) (blob : list byte) (t : Trace) :
  exists rest,
    snd (ReconstructField key (Some blob) t) =
    t ++ CallBoxDecrypt key (Some blob) :: rest.
Proof.
  rewrite ReconstructField_run, RederiveAuthPair_run. simpl.
  destruct (BoxDecrypt key (Some blob)) as [err|plaintext].
  - exists []. reflexivity.
  - cbv zeta. destruct (contains (string_of_bytes plaintext) colon).
    + eexists. simpl. rewrite <- !app_assoc. reflexivity.
    + exists []. reflexivity.
Qed.

(** C1 (as amended): with a cipher that opens what it sealed and seals to
    an actual blob, and enclaves that give back the bytes they guard whenever
    there is at least one byte, reconstructing from the [AuthPair] of a field
    created from a username [u] and a password handle holding [p], both
    non-empty and free of colons, succeeds, and the new handles open to [u]
    and [p]. *)
Theorem create_reconstruct_roundtrip
        (key : bytes) (u p : string) (pwd : Enclave)
        (created : Field) (t t1 : Trace) :
  cipher_roundtrip -> ciphertext_present -> guard_roundtrip_nonempty ->
  u <> EmptyString -> p <> EmptyString ->
  contains u colon = false ->
  contains p colon = false ->
  cleartext (Some pwd) = Returns (inr p) ->
  NewField key u pwd t = (Returns (Some created, None), t1) ->
  exists (field : Field) (t2 : Trace),
    ReconstructField key (AuthPair created) t1 =
      (Returns (Some field, None), t2) /\
    cleartext (Username field) = Returns (inr u) /\
    cleartext (Pwd field) = Returns (inr p).
Proof.
  intros Hcipher Hblob Hguard Hu0 Hp0 Hu Hp Hopen Hnew.
  rewrite NewField_run in Hnew. simpl in Hopen.
  destruct (Open pwd) as [err|clearpwd]; [discriminate Hopen|].
  injection Hopen as Hclear. cbv zeta in Hnew.
  destruct (BoxEncrypt key _) as [err|secret] eqn:Hseal; [discriminate Hnew|].
  injection Hnew as <- <-. simpl.
  destruct (Hcipher _ _ _ Hseal) as (opened & Hdec & Hsame).
  assert (Hplain : string_of_bytes opened = (u ++ String colon p)%string).
  { unfold string_of_bytes. rewrite Hsame. simpl.
    rewrite string_of_list_byte_of_string, Hclear. reflexivity. }
  rewrite ReconstructField_run.
  match goal with
  | |- context [RederiveAuthPair key (?f, ?t0)] =>
      destruct (RederiveAuthPair_with_separator key f t0 opened) as [t2 Hrun]
  end.
  - simpl. exact (Hblob _ _ _ Hseal).
  - exact Hdec.
  - rewrite Hplain. apply contains_join.
  - rewrite Hrun, Hplain, before_join, (after_join _ _ _ Hu).
    rewrite (before_no_separator _ _ Hu), (before_no_separator _ _ Hp).
    do 2 eexists. split; [reflexivity|]. simpl.
    rewrite !Hguard, !string_of_bytes_of_string.
    + split; reflexivity.
    + now apply bytes_of_string_not_empty.
    + now apply bytes_of_string_not_empty.
Qed.

(** *** Creation *)

(** C6: when the password handle opens and the cipher seals, [NewField]
    returns a field whose [AuthPair] is the sealed [u + ":" + cleartext],
    whose [Pwd] is the very handle passed in, whose [Username] is a fresh
    handle guarding the bytes of [u], and whose [DeniablePairs] is empty
    (nil). *)
Theorem NewField_postcondition
        (key : bytes) (u : string) (pwd : Enclave)
        (clearpwd : LockedBuffer) (secret : bytes) (t : Trace) :
  Open pwd = inr clearpwd ->
  BoxEncrypt key
    (bytes_of_string (u ++ ":" ++ string_of_bytes (Bytes clearpwd))%string)
    = inr secret ->
  exists (created : Field) (t' : Trace),
    NewField key u pwd t = (Returns (Some created, None), t') /\
    AuthPair created = secret /\
    Pwd created = Some pwd /\
    Username created = Seal (NewBufferFromBytes (bytes_of_string u)) /\
    DeniablePairs created = None /\
    len (DeniablePairs created) = 0.
Proof.
  intros Hopen Hseal.
  rewrite NewField_run, Hopen. cbv zeta. rewrite Hseal.
  do 2 eexists. split; [reflexivity|]. simpl. repeat split; reflexivity.
Qed.

(** C10: [NewField] returns an error exactly when the password handle does
    not open or the cipher does not seal.  The username is never inspected:
    one containing a colon is sealed like any other, and reconstructing from
    that [AuthPair] (with a cipher that opens what it sealed) guards only
    the part of the username before its first colon, not the username. *)
Theorem NewField_error_iff
        (key : bytes) (u : string) (pwd : Enclave) (t : Trace) :
  ((exists r err t', NewField key u pwd t = (Returns (r, Some err), t')) <->
   ((exists err, Open pwd = inl err) \/
    (exists clearpwd err,
        Open pwd = inr clearpwd /\
        BoxEncrypt key
          (bytes_of_string (u ++ ":" ++ string_of_bytes (Bytes clearpwd))%string)
          = inl err))) /\
  (forall (clearpwd : LockedBuffer) (secret : bytes),
      cipher_roundtrip -> ciphertext_present ->
      contains u colon = true ->
      Open pwd = inr clearpwd ->
      BoxEncrypt key
        (bytes_of_string (u ++ ":" ++ string_of_bytes (Bytes clearpwd))%string)
        = inr secret ->
      exists (created : Field) (t1 : Trace) (field : Field) (t2 : Trace),
        NewField key u pwd t = (Returns (Some created, None), t1) /\
        ReconstructField key (AuthPair created) t1 =
          (Returns (Some field, None), t2) /\
        Username field =
          Seal (NewBufferFromBytes (bytes_of_string (before u colon))) /\
        before u colon <> u).
Proof.
  split.
  - rewrite NewField_run. split.
    + intros (r & err & t' & H).
      destruct (Open pwd) as [e|clearpwd]; [left; now exists e|].
      right. cbv zeta in H.
      destruct (BoxEncrypt key _) as [e|secret] eqn:Hseal; [|discriminate H].
      now exists clearpwd, e.
    + intros [[e H]|(clearpwd & e & Hopen & Hseal)].
      * rewrite H. now eexists _, _, _.
      * rewrite Hopen. cbv zeta. rewrite Hseal. now eexists _, _, _.
  - intros clearpwd secret Hcipher Hblob Hu Hopen Hseal.
    rewrite NewField_run, Hopen. cbv zeta. rewrite Hseal.
    destruct (Hcipher _ _ _ Hseal) as (opened & Hdec & Hsame).
    assert (Hplain : string_of_bytes opened =
                     (u ++ String colon (string_of_bytes (Bytes clearpwd)))%string).
    { unfold string_of_bytes at 1. rewrite Hsame. simpl.
      now rewrite string_of_list_byte_of_string. }
    eexists _, _, _, _. split; [reflexivity|].
    cbn [AuthPair]. rewrite ReconstructField_run, RederiveAuthPair_run.
    cbn [AuthPair set_AuthPair]. rewrite (Hblob _ _ _ Hseal), Hdec.
    cbv zeta. rewrite Hplain, contains_join, before_join.
    split; [reflexivity|]. split; [reflexivity|].
    now apply before_proper_prefix.
Qed.

(** *** Deniable pairs *)

(** C7: when the password handle opens, [AddDeniableSecret] returns nil,
    [DeniablePairs] grows by exactly one entry, the new last entry is the
    bytes of [username], a colon and the cleartext, and the entries that
    were there keep their positions. *)
Theorem AddDeniableSecret_appends
        (username : string) (pwd : Enclave) (clearpwd : LockedBuffer)
        (f : Field) (t : Trace) :
  Open pwd = inr clearpwd ->
  exists (f' : Field) (t' : Trace),
    AddDeniableSecret username pwd (f, t) = (Returns None, (f', t')) /\
    len (DeniablePairs f') = S (len (DeniablePairs f)) /\
    elems (DeniablePairs f') =
      elems (DeniablePairs f) ++
      [Some (list_byte_of_string username ++ [":"%byte] ++ elems (Bytes clearpwd))] /\
    (forall i, i < len (DeniablePairs f) ->
               nth_error (elems (DeniablePairs f')) i =
               nth_error (elems (DeniablePairs f)) i).
Proof.
  intro Hopen. rewrite AddDeniableSecret_run, Hopen.
  do 2 eexists. split; [reflexivity|].
  cbn [DeniablePairs set_DeniablePairs fst snd].
  split; [apply len_append|].
  split.
  - unfold append, bytes_of_string. cbn [elems]. now rewrite secret_bytes.
  - intros i Hi. unfold append. cbn [elems]. now apply nth_error_app1.
Qed.

(** C9: whether it returns an error or not, [AddDeniableSecret] leaves
    [AuthPair], [Username] and [Pwd] as they were; [DeniablePairs] is either
    untouched or extended by one appended entry. *)
Theorem AddDeniableSecret_frame
        (username : string) (pwd : Enclave) (f : Field) (t : Trace) :
  AuthPair (fst (snd (AddDeniableSecret username pwd (f, t)))) = AuthPair f /\
  Username (fst (snd (AddDeniableSecret username pwd (f, t)))) = Username f /\
  Pwd (fst (snd (AddDeniableSecret username pwd (f, t)))) = Pwd f /\
  (DeniablePairs (fst (snd (AddDeniableSecret username pwd (f, t))))
     = DeniablePairs f \/
   exists entry,
     DeniablePairs (fst (snd (AddDeniableSecret username pwd (f, t))))
     = append (DeniablePairs f) entry).
Proof.
  rewrite AddDeniableSecret_run.
  destruct (Open pwd) as [err|clearpwd]; simpl.
  - repeat split; now left.
  - repeat split. right. eexists. reflexivity.
Qed.

(** *** Rederivation: frame and failure *)

(** C8: a successful [RederiveAuthPair] on a field that has an [AuthPair]
    leaves [AuthPair] and [DeniablePairs] exactly as they were. *)
Theorem RederiveAuthPair_keeps_blob
        (key : bytes) (f f' : Field) (t t' : Trace) :
  is_nil (AuthPair f) = false ->
  RederiveAuthPair key (f, t) = (Returns None, (f', t')) ->
  AuthPair f' = AuthPair f /\ DeniablePairs f' = DeniablePairs f.
Proof.
  intros _ Hrun.
  pose proof (RederiveAuthPair_frame key f t) as Hframe.
  now rewrite Hrun in Hframe.
Qed.

(** C5: an operation that returns an error has changed nothing: [NewField]
    and [ReconstructField] hand back no field (a nil reference), and
    [RederiveAuthPair] and [AddDeniableSecret] leave every component of the
    receiver as it was. *)
Theorem error_leaves_field_untouched
        (key compressed : bytes) (username : string) (pwd : Enclave)
        (f : Field) (t : Trace) :
  (forall r err t',
      NewField key username pwd t = (Returns (r, Some err), t') -> r = None) /\
  (forall r err t',
      ReconstructField key compressed t = (Returns (r, Some err), t') ->
      r = None) /\
  (forall err f' t',
      RederiveAuthPair key (f, t) = (Returns (Some err), (f', t')) -> f' = f) /\
  (forall err f' t',
      AddDeniableSecret username pwd (f, t) = (Returns (Some err), (f', t')) ->
      f' = f).
Proof.
  repeat split.
  - intros r err t'. rewrite NewField_run.
    destruct (Open pwd) as [e|clearpwd]; [now intros [= <- _ _]|].
    cbv zeta. destruct (BoxEncrypt key _) as [e|secret]; [|discriminate].
    now intros [= <- _ _].
  - intros r err t'. rewrite ReconstructField_run.
    destruct (RederiveAuthPair key _) as [[[e|]|p] [field t1]];
      try discriminate.
    now intros [= <- _ _].
  - intros err f' t' Hrun.
    pose proof (RederiveAuthPair_unchanged_unless_nil key f t) as Hsame.
    rewrite Hrun in Hsame. simpl in Hsame. apply Hsame. discriminate.
  - intros err f' t'. rewrite AddDeniableSecret_run.
    destruct (Open pwd) as [e|clearpwd]; [|discriminate].
    now intros [= _ <- _].
Qed.

End Properties.

(** ** The concrete instance meets the contracts *)

Lemma toy_strip_prefix_app (k m : list byte) : Toy.strip_prefix k (k ++ m) = Some m.
Proof.
  induction k as [|a k IH]; simpl; [reflexivity|].
  now rewrite (Byte.byte_dec_lb eq_refl).
Qed.

Lemma toy_cipher_roundtrip : cipher_roundtrip (P := Toy.prims).
Proof.
  intros [k|] plaintext secret; simpl; [|discriminate].
  intros [= <-]. exists (Some (elems plaintext)).
  unfold Toy.box_decrypt; simpl. now rewrite toy_strip_prefix_app.
Qed.

Lemma toy_ciphertext_present : ciphertext_present (P := Toy.prims).
Proof.
  intros [k|] plaintext secret; simpl; [|discriminate].
  now intros [= <-].
Qed.


Lemma nullbuffer_cipher_roundtrip : cipher_roundtrip (P := NullBuffer.prims).
Proof.
  exact toy_cipher_roundtrip.
Qed.

Lemma nullbuffer_ciphertext_present : ciphertext_present (P := NullBuffer.prims).
Proof.
  exact toy_ciphertext_present.
Qed.

Lemma nullbuffer_guard_roundtrip_nonempty :
  guard_roundtrip_nonempty (P := NullBuffer.prims).
Proof.
  intros b Hb. unfold cleartext. simpl.
  destruct (elems b) as [|x l] eqn:E; [now contradiction Hb|].
  unfold string_of_bytes. now rewrite E.
Qed.

(** ** The operations on concrete inputs *)

(** C1 (as amended) at key "k3y", username "alice", password "hunter2", with
    the null-buffer enclaves. *)
Lemma create_reconstruct_roundtrip_witness :
  exists (created : Field) (t1 : Trace),
    NewField (P := NullBuffer.prims) Toy.key "alice"
             (Toy.Sealed (list_byte_of_string "hunter2")) []
      = (Returns (Some created, None), t1) /\
    exists (field : Field) (t2 : Trace),
      ReconstructField Toy.key (AuthPair created) t1
        = (Returns (Some field, None), t2) /\
      cleartext (Username field) = Returns (inr "alice") /\
      cleartext (Pwd field) = Returns (inr "hunter2").
Proof.
  eexists _, _. split; [vm_compute; reflexivity|].
  apply (create_reconstruct_roundtrip
           (P := NullBuffer.prims) Toy.key "alice" "hunter2"
           (Toy.Sealed (list_byte_of_string "hunter2")) _ [] _
           nullbuffer_cipher_roundtrip nullbuffer_ciphertext_present
           nullbuffer_guard_roundtrip_nonempty);
    try reflexivity; discriminate.
Defined.

(** C1, the claim as written, fails: the empty username contains no colon,
    the cipher opens what it sealed, creation and reconstruction succeed, but
    the username handle of the reconstructed field is nil (sealing the null
    buffer made from the empty slice), so opening it does not give the
    username back. *)
Lemma create_reconstruct_roundtrip_counterexample :
  cipher_roundtrip (P := NullBuffer.prims) /\
  contains "" colon = false /\
  contains "pw" colon = false /\
  exists (created field : Field) (t1 t2 : Trace),
    NewField (P := NullBuffer.prims) Toy.key ""
             (Toy.Sealed (list_byte_of_string "pw")) []
      = (Returns (Some created, None), t1) /\
    ReconstructField Toy.key (AuthPair created) t1
      = (Returns (Some field, None), t2) /\
    Username field = None /\
    cleartext (Username field) = Panics NilPointerDereference /\
    cleartext (Username field) <> Returns (inr "") /\
    cleartext (Pwd field) = Returns (inr "pw").
Proof.
  split; [exact nullbuffer_cipher_roundtrip|].
  split; [reflexivity|]. split; [reflexivity|].
  eexists _, _, _, _.
  split; [vm_compute; reflexivity|].
  split; [vm_compute; reflexivity|].
  split; [reflexivity|]. split; [reflexivity|].
  split; [discriminate|reflexivity].
Qed.

(** C2, the claim as written, fails: the plaintext "alice:pa:ss" gives the
    password "pa", not the remainder "pa:ss". *)
Lemma RederiveAuthPair_split_counterexample :
  BoxDecrypt (Primitives := Toy.prims) Toy.key (bytes_of_string "k3yalice:pa:ss")
    = inr (bytes_of_string "alice:pa:ss") /\
  exists (f' : Field) (t' : Trace),
    RederiveAuthPair (P := Toy.prims) Toy.key
        (set_AuthPair (bytes_of_string "k3yalice:pa:ss") zeroField, [])
      = (Returns None, (f', t')) /\
    cleartext (Username f') = Returns (inr "alice") /\
    cleartext (Pwd f') = Returns (inr "pa") /\
    cleartext (Pwd f') <> Returns (inr "pa:ss").
Proof.
  split; [vm_compute; reflexivity|].
  eexists _, _. split; [vm_compute; reflexivity|].
  split; [vm_compute; reflexivity|]. split; [vm_compute; reflexivity|]. discriminate.
Qed.

(** C2 as amended, at the plaintext "alice:hunter2". *)
Lemma RederiveAuthPair_split_witness :
  exists (f' : Field) (t' : Trace),
    RederiveAuthPair (P := Toy.prims) Toy.key
        (set_AuthPair (bytes_of_string "k3yalice:hunter2") zeroField, [])
      = (Returns None, (f', t')) /\
    Username f' = Some (Toy.Sealed (list_byte_of_string "alice")) /\
    Pwd f' = Some (Toy.Sealed (list_byte_of_string "hunter2")).
Proof.
  destruct (RederiveAuthPair_split
              (P := Toy.prims) Toy.key
              (set_AuthPair (bytes_of_string "k3yalice:hunter2") zeroField) []
              (bytes_of_string "alice:hunter2")
              eq_refl eq_refl eq_refl)
    as (f' & t' & Hrun & Huser & Hpwd).
  exists f', t'. split; [exact Hrun|]. split; [exact Huser|].
  exact (Hpwd eq_refl).
Defined.

(** C3: the code does not return an error here.  A blob that decrypts to
    "alice" (no colon) makes [creds[1]] panic with index out of range
    [1] with length 1; the receiver is as it was. *)
Theorem RederiveAuthPair_missing_separator_panics :
  BoxDecrypt (Primitives := Toy.prims) Toy.key (bytes_of_string "k3yalice")
    = inr (bytes_of_string "alice") /\
  RederiveAuthPair (P := Toy.prims) Toy.key
      (set_AuthPair (bytes_of_string "k3yalice") zeroField, [])
    = (Panics (IndexOutOfRange 1 1),
       (set_AuthPair (bytes_of_string "k3yalice") zeroField,
        [CallBoxDecrypt Toy.key (bytes_of_string "k3yalice")])) /\
  ReconstructField (P := Toy.prims) Toy.key (bytes_of_string "k3yalice") []
    = (Panics (IndexOutOfRange 1 1),
       [CallBoxDecrypt Toy.key (bytes_of_string "k3yalice")]).
Proof.
  split; [vm_compute; reflexivity|]. split; reflexivity.
Qed.

(** C4, the claim as written, fails: the empty, non-nil blob is not caught by
    the nil guard; it is sent to [BoxDecrypt] and the error is the cipher's. *)
Lemma ReconstructField_empty_blob_counterexample :
  ReconstructField (P := Toy.prims) Toy.key (Some []) []
    = (Returns (None, Some "box: message authentication failed"),
       [CallBoxDecrypt Toy.key (Some [])]) /\
  ReconstructField (P := Toy.prims) Toy.key (Some []) []
    <> (Returns (None, Some (errors_New "No secret in field")), []).
Proof.
  split; [vm_compute; reflexivity|]. discriminate.
Qed.

(** C5 at inputs where each operation returns an error: a password handle
    that cannot be opened, and a field without [AuthPair]. *)
Lemma error_leaves_field_untouched_witness :
  (exists r err t',
      NewField (P := Toy.prims) Toy.key "bob" Toy.Wiped []
        = (Returns (r, Some err), t') /\ r = None) /\
  (exists r err t',
      ReconstructField (P := Toy.prims) Toy.key None []
        = (Returns (r, Some err), t') /\ r = None) /\
  (exists err f' t',
      RederiveAuthPair (P := Toy.prims) Toy.key (zeroField, [])
        = (Returns (Some err), (f', t')) /\ f' = zeroField) /\
  (exists err f' t',
      AddDeniableSecret (P := Toy.prims) "bob" Toy.Wiped (zeroField, [])
        = (Returns (Some err), (f', t')) /\ f' = zeroField).
Proof.
  pose proof (error_leaves_field_untouched
                (P := Toy.prims) Toy.key None "bob" Toy.Wiped zeroField [])
    as (Hnew & Hrec & Hred & Hadd).
  repeat split.
  - eexists _, _, _. split; [vm_compute; reflexivity|]. eapply Hnew. reflexivity.
  - eexists _, _, _. split; [vm_compute; reflexivity|]. eapply Hrec. reflexivity.
  - eexists _, _, _. split; [vm_compute; reflexivity|]. eapply Hred. reflexivity.
  - eexists _, _, _. split; [vm_compute; reflexivity|]. eapply Hadd. reflexivity.
Defined.

(** C6 at key "k3y", username "alice", password "hunter2". *)
Lemma NewField_postcondition_witness :
  exists (created : Field) (t' : Trace),
    NewField (P := Toy.prims) Toy.key "alice"
             (Toy.Sealed (list_byte_of_string "hunter2")) []
      = (Returns (Some created, None), t') /\
    AuthPair created = bytes_of_string "k3yalice:hunter2" /\
    Pwd created = Some (Toy.Sealed (list_byte_of_string "hunter2")) /\
    Username created = Some (Toy.Sealed (list_byte_of_string "alice")) /\
    DeniablePairs created = None /\
    len (DeniablePairs created) = 0.
Proof.
  exact (NewField_postcondition
           (P := Toy.prims) Toy.key "alice"
           (Toy.Sealed (list_byte_of_string "hunter2"))
           (list_byte_of_string "hunter2")
           (bytes_of_string "k3yalice:hunter2") [] eq_refl eq_refl).
Defined.

(** C7: adding ("bob", "decoy") to a field that already holds one deniable
    pair. *)
Lemma AddDeniableSecret_appends_witness :
  exists (f' : Field) (t' : Trace),
    AddDeniableSecret (P := Toy.prims) "bob"
        (Toy.Sealed (list_byte_of_string "decoy"))
        (set_DeniablePairs (Some [bytes_of_string "eve:x"]) zeroField, [])
      = (Returns None, (f', t')) /\
    len (DeniablePairs f') = 2 /\
    elems (DeniablePairs f')
      = [bytes_of_string "eve:x"; bytes_of_string "bob:decoy"].
Proof.
  destruct (AddDeniableSecret_appends
              (P := Toy.prims) "bob" (Toy.Sealed (list_byte_of_string "decoy"))
              (list_byte_of_string "decoy")
              (set_DeniablePairs (Some [bytes_of_string "eve:x"]) zeroField) []
              eq_refl)
    as (f' & t' & Hrun & Hlen & Hentries & _).
  exists f', t'. split; [exact Hrun|]. split; [exact Hlen|]. exact Hentries.
Defined.

(** C8 at a field holding the blob of "alice:hunter2" and one deniable
    pair. *)
Lemma RederiveAuthPair_keeps_blob_witness :
  exists (f' : Field) (t' : Trace),
    RederiveAuthPair (P := Toy.prims) Toy.key
        (mkField None None (bytes_of_string "k3yalice:hunter2")
                 (Some [bytes_of_string "eve:x"]), [])
      = (Returns None, (f', t')) /\
    AuthPair f' = bytes_of_string "k3yalice:hunter2" /\
    DeniablePairs f' = Some [bytes_of_string "eve:x"].
Proof.
  eexists _, _. split; [vm_compute; reflexivity|].
  eapply (RederiveAuthPair_keeps_blob
            (P := Toy.prims) Toy.key
            (mkField None None (bytes_of_string "k3yalice:hunter2")
                     (Some [bytes_of_string "eve:x"])) _ [] _ eq_refl).
  vm_compute; reflexivity.
Defined.

(** C10 at the username "a:b": sealed without complaint, reconstructed as
    "a". *)
Lemma NewField_error_iff_witness :
  exists (created : Field) (t1 : Trace) (field : Field) (t2 : Trace),
    NewField (P := Toy.prims) Toy.key "a:b"
             (Toy.Sealed (list_byte_of_string "hunter2")) []
      = (Returns (Some created, None), t1) /\
    ReconstructField Toy.key (AuthPair created) t1
      = (Returns (Some field, None), t2) /\
    Username field = Some (Toy.Sealed (list_byte_of_string "a")) /\
    "a" <> "a:b".
Proof.
  exact (proj2 (NewField_error_iff
                  (P := Toy.prims) Toy.key "a:b"
                  (Toy.Sealed (list_byte_of_string "hunter2")) [])
               (list_byte_of_string "hunter2")
               (bytes_of_string "k3ya:b:hunter2")
               toy_cipher_roundtrip toy_ciphertext_present
               eq_refl eq_refl eq_refl).
Defined.

(** * Further properties of field.go *)

(** ** strings.Split, as line 98 uses it *)

Lemma before_free (s : string) (c : ascii) : contains (before s c) c = false.
Proof.
  induction s as [|a s IH]; simpl; [reflexivity|].
  destruct (Ascii.eqb a c) eqn:E; simpl; [reflexivity|].
  now rewrite E, IH.
Qed.

(** The pieces of [Split s sep], put back together with [sep] between them,
    are [s]; no piece contains [sep]; and there is a single piece exactly
    when [s] has no [sep] (otherwise there are at least two). *)
Theorem Split_pieces (s : string) (sep : ascii) :
  String.concat (String sep EmptyString) (Split s sep) = s /\
  Forall (fun w => contains w sep = false) (Split s sep) /\
  (List.length (Split s sep) = 1 <-> contains s sep = false) /\
  (2 <= List.length (Split s sep) <-> contains s sep = true).
Proof.
  induction s as [|a s (Hcat & Hfree & Hone & Htwo)].
  - simpl. repeat split; auto; intro H; try discriminate H; lia.
  - pose proof (Split_not_nil s sep) as Hnil.
    cbn [Split contains].
    destruct (Ascii.eqb a sep) eqn:E.
    + apply Ascii.eqb_eq in E; subst a.
      destruct (Split s sep) as [|w ws] eqn:Hs; [now contradiction Hnil|].
      split; [rewrite <- Hcat; reflexivity|].
      split; [constructor; [reflexivity | exact Hfree]|].
      cbn [List.length orb]. split; split; intro H; try reflexivity; try lia;
        try discriminate H.
    + destruct (Split s sep) as [|w ws] eqn:Hs; [now contradiction Hnil|].
      inversion Hfree as [|w' ws' Hw Hws]; subst w' ws'.
      split.
      { rewrite <- Hcat. destruct ws; reflexivity. }
      split.
      { constructor; [cbn [contains]; now rewrite E, Hw | exact Hws]. }
      cbn [orb]. exact (conj Hone Htwo).
Qed.

Section FieldBehaviour.

Context {P : Primitives}.

(** ** RederiveAuthPair: the failure paths *)

(** A receiver without [AuthPair] gets the error "No secret in field"; no
    primitive is called (the trace is as before) and the receiver, whatever
    handles it holds, is as before. *)
Theorem RederiveAuthPair_no_secret (key : bytes) (f : Field) (t : Trace) :
  AuthPair f = None ->
  RederiveAuthPair key (f, t) =
  (Returns (Some (errors_New "No secret in field")), (f, t)).
Proof.
  intro Hnil. rewrite RederiveAuthPair_run, Hnil. reflexivity.
Qed.

(** An error of [BoxDecrypt] (wrong key, tampered blob) is returned as it is,
    after that one call and nothing else; the receiver is as before. *)
Theorem RederiveAuthPair_decrypt_error
        (key : bytes) (f : Field) (t : Trace) (err : error) :
  is_nil (AuthPair f) = false ->
  BoxDecrypt key (AuthPair f) = inl err ->
  RederiveAuthPair key (f, t) =
  (Returns (Some err), (f, t ++ [CallBoxDecrypt key (AuthPair f)])).
Proof.
  intros Hnil Hdec. rewrite RederiveAuthPair_run, Hnil, Hdec. reflexivity.
Qed.

(** A successful call leaves handles that guard colon-free strings: neither
    the recovered username nor the recovered password contains a colon. *)
Theorem RederiveAuthPair_handles_colon_free
        (key : bytes) (f f' : Field) (t t' : Trace) :
  RederiveAuthPair key (f, t) = (Returns None, (f', t')) ->
  exists user pwd : string,
    Username f' = Seal (NewBufferFromBytes (bytes_of_string user)) /\
    Pwd f' = Seal (NewBufferFromBytes (bytes_of_string pwd)) /\
    contains user colon = false /\
    contains pwd colon = false.
Proof.
  rewrite RederiveAuthPair_run.
  destruct (is_nil (AuthPair f)); [discriminate|].
  destruct (BoxDecrypt key (AuthPair f)) as [err|plaintext]; [discriminate|].
  cbv zeta. destruct (contains (string_of_bytes plaintext) colon); [|discriminate].
  intros [= <- _].
  exists (before (string_of_bytes plaintext) colon),
         (before (after (string_of_bytes plaintext) colon) colon).
  cbn [Username Pwd]. repeat split; apply before_free.
Qed.

(** [RederiveAuthPair] never reads [DeniablePairs]: with any other list of
    deniable pairs in the receiver, the result, the handles and the calls made
    are the same, and that list is what the receiver still holds. *)
Theorem RederiveAuthPair_ignores_deniable_pairs
        (key : bytes) (f : Field) (d : slice bytes) (t : Trace) :
  RederiveAuthPair key (set_DeniablePairs d f, t) =
  (fst (RederiveAuthPair key (f, t)),
   (set_DeniablePairs d (fst (snd (RederiveAuthPair key (f, t)))),
    snd (snd (RederiveAuthPair key (f, t))))).
Proof.
  rewrite !RederiveAuthPair_run. cbn [AuthPair set_DeniablePairs].
  destruct (is_nil (AuthPair f)); [reflexivity|].
  destruct (BoxDecrypt key (AuthPair f)) as [err|plaintext]; [reflexivity|].
  cbv zeta.
  destruct (contains (string_of_bytes plaintext) colon); reflexivity.
Qed.

(** A successful call overwrites both handles: the field it leaves does not
    depend on the handles the receiver held before. *)
Theorem RederiveAuthPair_replaces_handles
        (key : bytes) (f f' : Field) (t t' : Trace) (h1 h2 : option Enclave) :
  RederiveAuthPair key (f, t) = (Returns None, (f', t')) ->
  RederiveAuthPair key (mkField h1 h2 (AuthPair f) (DeniablePairs f), t) =
  (Returns None, (f', t')).
Proof.
  rewrite !RederiveAuthPair_run. cbn [AuthPair DeniablePairs].
  destruct (is_nil (AuthPair f)); [discriminate|].
  destruct (BoxDecrypt key (AuthPair f)) as [err|plaintext]; [discriminate|].
  cbv zeta.
  destruct (contains (string_of_bytes plaintext) colon); [|discriminate].
  now intros [= <- <-].
Qed.

(** ** ReconstructField: every outcome *)

(** [ReconstructField] hands back a field exactly when the blob is non-nil,
    decrypts, and the plaintext has a colon; it panics exactly when the blob
    is non-nil, decrypts, and the plaintext has no colon; it returns an error
    exactly when the blob is nil or does not decrypt. *)
Theorem ReconstructField_outcomes (key compressed : bytes) (t : Trace) :
  ((exists field t',
       ReconstructField key compressed t = (Returns (Some field, None), t')) <->
   (is_nil compressed = false /\
    exists plaintext,
      BoxDecrypt key compressed = inr plaintext /\
      contains (string_of_bytes plaintext) colon = true)) /\
  ((exists p t', ReconstructField key compressed t = (Panics p, t')) <->
   (is_nil compressed = false /\
    exists plaintext,
      BoxDecrypt key compressed = inr plaintext /\
      contains (string_of_bytes plaintext) colon = false)) /\
  ((exists r err t',
       ReconstructField key compressed t = (Returns (r, Some err), t')) <->
   (is_nil compressed = true \/
    exists err, BoxDecrypt key compressed = inl err)).
Proof.
  rewrite ReconstructField_run, RederiveAuthPair_run.
  cbn [AuthPair set_AuthPair].
  destruct (is_nil compressed) eqn:Hnil.
  - split; [|split]; split.
    + intros (field & t' & H). discriminate H.
    + intros [H _]. discriminate H.
    + intros (p & t' & H). discriminate H.
    + intros [H _]. discriminate H.
    + intros _. now left.
    + intros _. now eexists _, _, _.
  - destruct (BoxDecrypt key compressed) as [err|plaintext].
    + split; [|split]; split.
      * intros (field & t' & H). discriminate H.
      * intros [_ (plaintext & H & _)]. discriminate H.
      * intros (p & t' & H). discriminate H.
      * intros [_ (plaintext & H & _)]. discriminate H.
      * intros _. right. now exists err.
      * intros _. now eexists _, _, _.
    + cbv zeta.
      destruct (contains (string_of_bytes plaintext) colon) eqn:Hsep.
      * split; [|split]; split.
        -- intros _. split; [reflexivity|]. now exists plaintext.
        -- intros _. now eexists _, _.
        -- intros (p & t' & H). discriminate H.
        -- intros [_ (plaintext' & [= <-] & H)]. congruence.
        -- intros (r & err & t' & H). discriminate H.
        -- intros [H|[err H]]; discriminate H.
      * split; [|split]; split.
        -- intros (field & t' & H). discriminate H.
        -- intros [_ (plaintext' & [= <-] & H)]. congruence.
        -- intros _. split; [reflexivity|]. now exists plaintext.
        -- intros _. now eexists _, _.
        -- intros (r & err & t' & H). discriminate H.
        -- intros [H|[err H]]; discriminate H.
Qed.

(** A reconstructed field holds the blob it was given as [AuthPair], has no
    deniable pairs (they do not come back with the blob), and its handles
    guard the first two colon-separated pieces of the decrypted plaintext. *)
Theorem ReconstructField_postcondition
        (key compressed : bytes) (field : Field) (t t' : Trace) :
  ReconstructField key compressed t = (Returns (Some field, None), t') ->
  AuthPair field = compressed /\
  DeniablePairs field = None /\
  exists plaintext,
    BoxDecrypt key compressed = inr plaintext /\
    Username field =
      Seal (NewBufferFromBytes
              (bytes_of_string (before (string_of_bytes plaintext) colon))) /\
    Pwd field =
      Seal (NewBufferFromBytes
              (bytes_of_string
                 (before (after (string_of_bytes plaintext) colon) colon))).
Proof.
  rewrite ReconstructField_run, RederiveAuthPair_run.
  cbn [AuthPair set_AuthPair DeniablePairs zeroField].
  destruct (is_nil compressed); [discriminate|].
  destruct (BoxDecrypt key compressed) as [err|plaintext]; [discriminate|].
  cbv zeta.
  destruct (contains (string_of_bytes plaintext) colon); [|discriminate].
  intros [= <- _]. cbn [AuthPair DeniablePairs Username Pwd].
  split; [reflexivity|]. split; [reflexivity|].
  now exists plaintext.
Qed.

(** ** Creation, then reading back *)



(** [NewField] forwards the error of whichever primitive failed, unchanged.
    When the handle does not open the cipher is never called; when the cipher
    does not seal no enclave is made. *)
Theorem NewField_forwards_errors
        (key : bytes) (u : string) (pwd : Enclave) (t : Trace) :
  (forall err,
      Open pwd = inl err ->
      NewField key u pwd t = (Returns (None, Some err), t ++ [CallOpen pwd])) /\
  (forall clearpwd err,
      Open pwd = inr clearpwd ->
      BoxEncrypt key
        (bytes_of_string (u ++ ":" ++ string_of_bytes (Bytes clearpwd))%string)
        = inl err ->
      NewField key u pwd t =
      (Returns (None, Some err),
       t ++ [CallOpen pwd;
             CallBoxEncrypt key
               (bytes_of_string
                  (u ++ ":" ++ string_of_bytes (Bytes clearpwd))%string)])).
Proof.
  split.
  - intros err Hopen. now rewrite NewField_run, Hopen.
  - intros clearpwd err Hopen Hseal.
    rewrite NewField_run, Hopen. cbv zeta. rewrite Hseal, <- app_assoc.
    reflexivity.
Qed.

(** ** Deniable pairs *)

(** [AddDeniableSecret] uses neither cipher operation and makes no enclave,
    whether it returns an error or not: of the calls that are recorded it
    makes one, [Open] on the password handle.  (Reading the opened buffer
    with [Bytes] is not a recorded call.)  The pair is stored as plaintext. *)
Theorem AddDeniableSecret_no_cipher_no_enclave
        (username : string) (pwd : Enclave) (f : Field) (t : Trace) :
  exists calls : Trace,
    snd (snd (AddDeniableSecret username pwd (f, t))) = t ++ calls /\
    calls = [CallOpen pwd] /\
    forall ev, In ev calls ->
      match ev with
      | CallBoxEncrypt _ _ | CallBoxDecrypt _ _ => False
      | CallNewBufferFromBytes _ | CallSeal _ => False
      | CallOpen e => e = pwd
      end.
Proof.
  exists [CallOpen pwd]. rewrite AddDeniableSecret_run.
  split; [now destruct (Open pwd)|]. split; [reflexivity|].
  intros ev [<-|[]]. reflexivity.
Qed.

(** Two additions in a row leave the earlier entries in place, followed by
    the two new pairs in the order of the calls. *)
Theorem AddDeniableSecret_twice
        (u1 u2 : string) (pwd1 pwd2 : Enclave) (c1 c2 : LockedBuffer)
        (f : Field) (t : Trace) :
  Open pwd1 = inr c1 ->
  Open pwd2 = inr c2 ->
  exists (f1 f2 : Field) (t1 t2 : Trace),
    AddDeniableSecret u1 pwd1 (f, t) = (Returns None, (f1, t1)) /\
    AddDeniableSecret u2 pwd2 (f1, t1) = (Returns None, (f2, t2)) /\
    elems (DeniablePairs f2) =
      elems (DeniablePairs f) ++
      [bytes_of_string (u1 ++ ":" ++ string_of_bytes (Bytes c1))%string;
       bytes_of_string (u2 ++ ":" ++ string_of_bytes (Bytes c2))%string] /\
    len (DeniablePairs f2) = 2 + len (DeniablePairs f).
Proof.
  intros H1 H2.
  eexists _, _, _, _.
  split; [rewrite AddDeniableSecret_run, H1; reflexivity|].
  split; [rewrite AddDeniableSecret_run, H2; reflexivity|].
  cbn [DeniablePairs set_DeniablePairs]. unfold len, append. cbn [elems].
  rewrite <- app_assoc. split; [reflexivity|].
  rewrite length_app. simpl. lia.
Qed.

End FieldBehaviour.

(** ** The further properties on concrete inputs *)

(** A field that holds handles but no blob. *)
Lemma RederiveAuthPair_no_secret_witness :
  RederiveAuthPair (P := Toy.prims) Toy.key
      (mkField (P := Toy.prims) (Some Toy.Wiped) (Some Toy.Wiped) None None, [])
    = (Returns (Some "No secret in field"),
       (mkField (P := Toy.prims) (Some Toy.Wiped) (Some Toy.Wiped) None None, [])).
Proof.
  exact (RederiveAuthPair_no_secret
           (P := Toy.prims) Toy.key
           (mkField (P := Toy.prims) (Some Toy.Wiped) (Some Toy.Wiped) None None) [] eq_refl).
Defined.

(** The blob sealed under "k3y", opened with the key "bad". *)
Lemma RederiveAuthPair_decrypt_error_witness :
  RederiveAuthPair (P := Toy.prims) (bytes_of_string "bad")
      (set_AuthPair (bytes_of_string "k3yalice:hunter2") zeroField, [])
    = (Returns (Some "box: message authentication failed"),
       (set_AuthPair (bytes_of_string "k3yalice:hunter2") zeroField,
        [CallBoxDecrypt (bytes_of_string "bad")
                        (bytes_of_string "k3yalice:hunter2")])).
Proof.
  exact (RederiveAuthPair_decrypt_error
           (P := Toy.prims) (bytes_of_string "bad")
           (set_AuthPair (bytes_of_string "k3yalice:hunter2") zeroField) []
           "box: message authentication failed" eq_refl eq_refl).
Defined.

(** A blob whose plaintext is "alice", without a colon. *)
Lemma RederiveAuthPair_without_separator_witness :
  RederiveAuthPair (P := Toy.prims) Toy.key
      (set_AuthPair (bytes_of_string "k3yalice") zeroField, [])
    = (Panics (IndexOutOfRange 1 1),
       (set_AuthPair (bytes_of_string "k3yalice") zeroField,
        [] ++ [CallBoxDecrypt Toy.key (bytes_of_string "k3yalice")])).
Proof.
  exact (RederiveAuthPair_without_separator
           (P := Toy.prims) Toy.key
           (set_AuthPair (bytes_of_string "k3yalice") zeroField) []
           (bytes_of_string "alice") eq_refl eq_refl eq_refl).
Defined.

(** The plaintext "alice:pa:ss": the handles guard "alice" and "pa". *)
Lemma RederiveAuthPair_handles_colon_free_witness :
  exists (f' : Field) (t' : Trace),
    RederiveAuthPair (P := Toy.prims) Toy.key
        (set_AuthPair (bytes_of_string "k3yalice:pa:ss") zeroField, [])
      = (Returns None, (f', t')) /\
    exists user pwd : string,
      Username f' = Seal (NewBufferFromBytes (bytes_of_string user)) /\
      Pwd f' = Seal (NewBufferFromBytes (bytes_of_string pwd)) /\
      contains user colon = false /\
      contains pwd colon = false.
Proof.
  eexists _, _. split; [vm_compute; reflexivity|].
  eapply (RederiveAuthPair_handles_colon_free
            (P := Toy.prims) Toy.key
            (set_AuthPair (bytes_of_string "k3yalice:pa:ss") zeroField) _ [] _).
  vm_compute; reflexivity.
Defined.

(** The same blob in a field that already holds two handles. *)
Lemma RederiveAuthPair_replaces_handles_witness :
  exists (f' : Field) (t' : Trace),
    RederiveAuthPair (P := Toy.prims) Toy.key
        (set_AuthPair (bytes_of_string "k3yalice:hunter2") zeroField, [])
      = (Returns None, (f', t')) /\
    RederiveAuthPair (P := Toy.prims) Toy.key
        (mkField (P := Toy.prims) (Some Toy.Wiped) (Some (Toy.Sealed []))
                 (bytes_of_string "k3yalice:hunter2") None, [])
      = (Returns None, (f', t')).
Proof.
  eexists _, _. split; [vm_compute; reflexivity|].
  eapply (RederiveAuthPair_replaces_handles
            (P := Toy.prims) Toy.key
            (set_AuthPair (bytes_of_string "k3yalice:hunter2") zeroField) _ [] _
            (Some Toy.Wiped) (Some (Toy.Sealed []))).
  vm_compute; reflexivity.
Defined.

(** Reconstructing from the blob of "alice:hunter2". *)
Lemma ReconstructField_postcondition_witness :
  exists (field : Field) (t' : Trace),
    ReconstructField (P := Toy.prims) Toy.key
                     (bytes_of_string "k3yalice:hunter2") []
      = (Returns (Some field, None), t') /\
    AuthPair field = bytes_of_string "k3yalice:hunter2" /\
    DeniablePairs field = None.
Proof.
  eexists _, _. split; [vm_compute; reflexivity|].
  destruct (ReconstructField_postcondition
              (P := Toy.prims) Toy.key (bytes_of_string "k3yalice:hunter2")
              _ [] _ eq_refl) as (Hblob & Hden & _).
  exact (conj Hblob Hden).
Defined.



(** A handle that does not open; and a nil key, which the cipher refuses. *)
Lemma NewField_forwards_errors_witness :
  NewField (P := Toy.prims) Toy.key "bob" Toy.Wiped []
    = (Returns (None, Some "memguard: unable to open enclave"),
       [] ++ [CallOpen (P := Toy.prims) Toy.Wiped]) /\
  NewField (P := Toy.prims) None "bob"
           (Toy.Sealed (list_byte_of_string "decoy")) []
    = (Returns (None, Some "box: no key"),
       [] ++ [CallOpen (P := Toy.prims) (Toy.Sealed (list_byte_of_string "decoy"));
              CallBoxEncrypt None (bytes_of_string "bob:decoy")]).
Proof.
  split.
  - exact (proj1 (NewField_forwards_errors
                    (P := Toy.prims) Toy.key "bob" Toy.Wiped [])
                 "memguard: unable to open enclave" eq_refl).
  - exact (proj2 (NewField_forwards_errors
                    (P := Toy.prims) None "bob"
                    (Toy.Sealed (list_byte_of_string "decoy")) [])
                 (list_byte_of_string "decoy") "box: no key" eq_refl eq_refl).
Defined.

(** Adding ("bob", "decoy") and then ("eve", "x") to a fresh field. *)
Lemma AddDeniableSecret_twice_witness :
  exists (f1 f2 : Field) (t1 t2 : Trace),
    AddDeniableSecret (P := Toy.prims) "bob"
        (Toy.Sealed (list_byte_of_string "decoy")) (zeroField, [])
      = (Returns None, (f1, t1)) /\
    AddDeniableSecret (P := Toy.prims) "eve"
        (Toy.Sealed (list_byte_of_string "x")) (f1, t1)
      = (Returns None, (f2, t2)) /\
    elems (DeniablePairs f2)
      = [bytes_of_string "bob:decoy"; bytes_of_string "eve:x"] /\
    len (DeniablePairs f2) = 2.
Proof.
  exact (AddDeniableSecret_twice
           (P := Toy.prims) "bob" "eve"
           (Toy.Sealed (list_byte_of_string "decoy"))
           (Toy.Sealed (list_byte_of_string "x"))
           (list_byte_of_string "decoy") (list_byte_of_string "x")
           zeroField [] eq_refl eq_refl).
Defined.
